(* ===================================================================== *)
(*  gtsam/navigation/AggregateImuReadings.cpp                            *)
(*  Integration of IMU readings on the NavState tangent space.           *)
(*                                                                       *)
(*  Shallow embedding.  C++ `double` is idealised as an arbitrary real   *)
(*  field F (exact arithmetic, no rounding, no NaN); Eigen fixed-size    *)
(*  vectors and matrices are MathComp matrices over F, a 9-vector being  *)
(*  three stacked 3-vectors and a 9x9 matrix a 3x3 grid of 3x3 blocks,   *)
(*  which is how the source addresses them (segment<3>, block<3,3>).     *)
(*                                                                       *)
(*  wrap/wrap.cpp                                                        *)
(*  The command line of the wrapper generator: argument check, choice of *)
(*  the target and exit status, with what it writes as a trace.          *)
(* ===================================================================== *)

From Stdlib Require Import String.
From HB Require Import structures.
From mathcomp Require Import boot order algebra.

Set Implicit Arguments.
Unset Strict Implicit.
Unset Printing Implicit Defensive.

Import GRing.Theory Num.Theory Order.POrderTheory.
Local Open Scope ring_scope.

(* --------------------------------------------------------------------- *)
(*  Fixed-size Eigen types                                               *)
(* --------------------------------------------------------------------- *)

Section EigenTypes.

Variable F : realFieldType.

Definition Vector3 := 'cV[F]_3.
Definition Matrix3 := 'M[F]_3.
Definition Vector9 := 'cV[F]_(3 + (3 + 3)).
Definition Matrix9 := 'M[F]_(3 + (3 + 3)).
Definition Matrix93 := 'M[F]_(3 + (3 + 3), 3).

(* The constants Z_3x3 and I_3x3 of gtsam/base/Matrix.h. *)
Definition Z_3x3 : Matrix3 := 0.
Definition I_3x3 : Matrix3 := 1%:M.

(* Eigen writes `M * s` and `M / s` for a matrix and a scalar; both act
   entry by entry.  `M / s` stands for the source's division only when s is
   not 0: there the source produces inf and NaN entries, which a field does
   not have. *)
Definition mul_scalar m n (M : 'M[F]_(m, n)) (s : F) : 'M[F]_(m, n) :=
  \matrix_(i, j) (M i j * s).
Definition div_scalar m n (M : 'M[F]_(m, n)) (s : F) : 'M[F]_(m, n) :=
  \matrix_(i, j) (M i j / s).

(* `0.5 * x`; 0.5 is the exact double one half. *)
Definition half : F := 2%:R^-1.

(* Comma initialisers: `v << a, b, c` for a 9-vector, `B << X, Y, Z` for a
   9x3 matrix (three 3x3 blocks, stacked because the matrix is 3 wide) and
   `H << ...` for a 9x9 matrix (nine blocks, row by row). *)
Definition stack3 n (a b c : 'M[F]_(3, n)) : 'M[F]_(3 + (3 + 3), n) :=
  col_mx a (col_mx b c).

Definition blocks9 (b00 b01 b02 b10 b11 b12 b20 b21 b22 : Matrix3) : Matrix9 :=
  stack3 (row_mx b00 (row_mx b01 b02))
         (row_mx b10 (row_mx b11 b12))
         (row_mx b20 (row_mx b21 b22)).

(* Row segments: v.segment<3>(0), v.segment<3>(3), v.segment<3>(6). *)
Definition seg0 n (M : 'M[F]_(3 + (3 + 3), n)) : 'M[F]_(3, n) := usubmx M.
Definition seg3 n (M : 'M[F]_(3 + (3 + 3), n)) : 'M[F]_(3, n) :=
  usubmx (dsubmx M).
Definition seg6 n (M : 'M[F]_(3 + (3 + 3), n)) : 'M[F]_(3, n) :=
  dsubmx (dsubmx M).

(* Column segments of a 3x9 row block. *)
Definition cseg0 (M : 'M[F]_(3, 3 + (3 + 3))) : Matrix3 := lsubmx M.
Definition cseg3 (M : 'M[F]_(3, 3 + (3 + 3))) : Matrix3 := lsubmx (rsubmx M).
Definition cseg6 (M : 'M[F]_(3, 3 + (3 + 3))) : Matrix3 := rsubmx (rsubmx M).

(* M.block<3,3>(r, c) for r, c in {0, 3, 6}. *)
Definition block00 (M : Matrix9) : Matrix3 := cseg0 (seg0 M).
Definition block03 (M : Matrix9) : Matrix3 := cseg3 (seg0 M).
Definition block06 (M : Matrix9) : Matrix3 := cseg6 (seg0 M).
Definition block30 (M : Matrix9) : Matrix3 := cseg0 (seg3 M).
Definition block33 (M : Matrix9) : Matrix3 := cseg3 (seg3 M).
Definition block36 (M : Matrix9) : Matrix3 := cseg6 (seg3 M).
Definition block60 (M : Matrix9) : Matrix3 := cseg0 (seg6 M).
Definition block63 (M : Matrix9) : Matrix3 := cseg3 (seg6 M).
Definition block66 (M : Matrix9) : Matrix3 := cseg6 (seg6 M).

(* Assignment to one block, the other eight kept. *)
Definition set_block00 (M : Matrix9) (B : Matrix3) : Matrix9 :=
  blocks9 B (block03 M) (block06 M)
          (block30 M) (block33 M) (block36 M)
          (block60 M) (block63 M) (block66 M).
Definition set_block30 (M : Matrix9) (B : Matrix3) : Matrix9 :=
  blocks9 (block00 M) (block03 M) (block06 M)
          B (block33 M) (block36 M)
          (block60 M) (block63 M) (block66 M).
Definition set_block36 (M : Matrix9) (B : Matrix3) : Matrix9 :=
  blocks9 (block00 M) (block03 M) (block06 M)
          (block30 M) (block33 M) B
          (block60 M) (block63 M) (block66 M).
Definition set_block60 (M : Matrix9) (B : Matrix3) : Matrix9 :=
  blocks9 (block00 M) (block03 M) (block06 M)
          (block30 M) (block33 M) (block36 M)
          B (block63 M) (block66 M).

End EigenTypes.

Arguments Z_3x3 {F}.
Arguments I_3x3 {F}.
Arguments half {F}.

(* --------------------------------------------------------------------- *)
(*  Collaborators declared outside AggregateImuReadings.cpp              *)
(* --------------------------------------------------------------------- *)

Section Collaborators.

Variable F : realFieldType.

(* Rot3 is represented by its rotation matrix; `matrix()` and the Rot3
   constructor from a Matrix3 are then the identity. *)
Definition Rot3 := Matrix3 F.
Definition matrix (R : Rot3) : Matrix3 F := R.

(** Modelled from the spec: skewSymmetric (declared in gtsam/base/Matrix.h,
    its body is missing), "the skew-symmetric matrix of" a 3-vector, that is
    the cross-product matrix
        0  -wz   wy
        wz   0  -wx
       -wy  wx   0                                                        *)
Definition skewSymmetric (w : Vector3 F) : Matrix3 F :=
  let wx := w (inord 0) 0 in
  let wy := w (inord 1) 0 in
  let wz := w (inord 2) 0 in
  \matrix_(i, j)
    match val i, val j with
    | 0%N, 1%N => - wz | 0%N, 2%N => wy
    | 1%N, 0%N => wz   | 1%N, 2%N => - wx
    | 2%N, 0%N => - wy | 2%N, 1%N => wx
    | _, _ => 0
    end.

(** Modelled from the spec: the Gaussian noise model (declared in
    gtsam/linear/NoiseModel.h, its body is missing), "one interface
    exposing covariance()": a model built by Gaussian::Covariance(c, smart)
    answers covariance() with c. *)
Inductive Gaussian (n : nat) : Type :=
  Gaussian_Covariance (c : 'M[F]_n) (smart : bool).

Definition covariance n (g : Gaussian n) : 'M[F]_n :=
  let: Gaussian_Covariance c _ := g in c.

(* PreintegrationParams, imuBias::ConstantBias and NavState: the fields the
   source reads. *)
Record Params := mkParams {
  accelerometerCovariance : Matrix3 F;
  gyroscopeCovariance : Matrix3 F;
  n_gravity : Vector3 F
}.

Record Bias := mkBias {
  accelerometer : Vector3 F;
  gyroscope : Vector3 F
}.

Record NavState := mkNavState {
  attitude : Rot3;
  position : Vector3 F;
  velocity : Vector3 F
}.

End Collaborators.

(* --------------------------------------------------------------------- *)
(*  AggregateImuReadings                                                 *)
(* --------------------------------------------------------------------- *)

Section Source.

Variable F : realFieldType.

Local Notation Vector3 := (Vector3 F).
Local Notation Matrix3 := (Matrix3 F).
Local Notation Vector9 := (Vector9 F).
Local Notation Matrix9 := (Matrix9 F).
Local Notation Matrix93 := (Matrix93 F).
Local Notation Rot3 := (Rot3 F).

(* Black boxes of the rotation group and of Eigen, as the source uses them:
   Rot3::Expmap(theta, H) gives the rotation and writes the derivative of
   the exponential map to H; Matrix3::inverse(); the two derivatives that
   Rot3::rotate(p, H1, H2) writes; NavState::retract. *)
Variable Expmap : Vector3 -> Rot3 * Matrix3.
Variable inverse : Matrix3 -> Matrix3.
Variable D_rotate_R : Rot3 -> Vector3 -> Matrix3.
Variable D_rotate_p : Rot3 -> Vector3 -> Matrix3.
Variable retract : NavState F -> Vector9 -> NavState F.

(* A declared but never assigned Eigen matrix.  Its content is
   indeterminate in C++; nothing below depends on what it is. *)
Variable uninitialized : forall m n, 'M[F]_(m, n).

(** Modelled from the spec: Rot3::rotate (declared in gtsam/geometry/Rot3.h,
    its body is missing), "Radt = R (accel dt)": the rotation matrix applied
    to the vector.  H1 and H2 are written only when requested. *)
Definition rotate (R : Rot3) (p : Vector3) (H1 H2 : bool) :
    Vector3 * option Matrix3 * option Matrix3 :=
  (matrix R *m p,
   if H1 then Some (D_rotate_R R p) else None,
   if H2 then Some (D_rotate_p R p) else None).

(* The content of an output slot after a call that may have written it. *)
Definition slot T (before : T) (written : option T) : T :=
  odflt before written.

Record AggregateImuReadings := mkAggregateImuReadings {
  p_ : Params F;
  accelerometerNoiseModel_ : Gaussian F 3;
  gyroscopeNoiseModel_ : Gaussian F 3;
  estimatedBias_ : Bias F;
  k_ : nat;
  deltaTij_ : F;
  zeta_ : Vector9;
  cov_ : Matrix9
}.

(* The constructor. *)
Definition AggregateImuReadings_new (p : Params F) (estimatedBias : Bias F) :
    AggregateImuReadings :=
  {| p_ := p;
     accelerometerNoiseModel_ :=
       Gaussian_Covariance (accelerometerCovariance p) true;
     gyroscopeNoiseModel_ :=
       Gaussian_Covariance (gyroscopeCovariance p) true;
     estimatedBias_ := estimatedBias;
     k_ := 0;
     deltaTij_ := 0;
     zeta_ := 0;
     cov_ := 0 |}.

(* namespace sugar *)
Definition dR (v : Vector9) : Vector3 := seg0 v.
Definition dP (v : Vector9) : Vector3 := seg3 v.
Definition dV (v : Vector9) : Vector3 := seg6 v.

(* theta() of the header: the rotation part of zeta_. *)
Definition theta (s : AggregateImuReadings) : Vector3 := dR (zeta_ s).

(* UpdateEstimate returns the mean; A, Ba and Bw are OptionalJacobian
   arguments, here a flag each (requested or not) and an optional result
   each (what was written). *)
Record Estimate := mkEstimate {
  zeta_plus : Vector9;
  out_A : option Matrix9;
  out_Ba : option Matrix93;
  out_Bw : option Matrix93
}.

Definition UpdateEstimate (zeta : Vector9) (correctedAcc correctedOmega : Vector3)
    (dt : F) (A Ba Bw : bool) : Estimate :=
  let a_dt := mul_scalar correctedAcc dt in
  let w_dt := mul_scalar correctedOmega dt in
  (* Calculate exact mean propagation *)
  let e := Expmap (dR zeta) in
  let D_R_theta := e.2 in
  let R : Rot3 := matrix e.1 in
  let invH := inverse D_R_theta in
  let r := rotate R a_dt A A in
  let D_Radt_R := slot (uninitialized 3 3) r.1.2 in
  let D_Radt_adt := slot (uninitialized 3 3) r.2 in
  let Radt := r.1.1 in
  let dt2 := half * dt in
  let zeta_plus :=
    stack3 (dR zeta + invH *m w_dt)
           (dP zeta + mul_scalar (dV zeta) dt + mul_scalar Radt dt2)
           (dV zeta + Radt) in
  let A' :=
    if A then
      (* Exact derivative of R*a*dt with respect to theta: *)
      let D_Radt_theta := D_Radt_R *m D_R_theta in
      (* First order (small angle) approximation of derivative of invH*w*dt: *)
      let D_invHwdt_theta := skewSymmetric ((- half) *: w_dt) in
      let A0 : Matrix9 := 1%:M in
      let A1 := set_block00 A0 (block00 A0 + D_invHwdt_theta) in
      let A2 := set_block30 A1 (mul_scalar D_Radt_theta dt2) in
      let A3 := set_block36 A2 (mul_scalar I_3x3 dt) in
      let A4 := set_block60 A3 D_Radt_theta in
      Some A4
    else None in
  let Ba' :=
    if Ba then
      Some (stack3 Z_3x3 (mul_scalar (mul_scalar D_Radt_adt dt) dt2)
                   (mul_scalar D_Radt_adt dt))
    else None in
  let Bw' :=
    if Bw then Some (stack3 (mul_scalar invH dt) Z_3x3 Z_3x3) else None in
  mkEstimate zeta_plus A' Ba' Bw'.

Definition integrateMeasurement (s : AggregateImuReadings)
    (measuredAcc measuredOmega : Vector3) (dt : F) : AggregateImuReadings :=
  (* Correct measurements *)
  let correctedAcc := measuredAcc - accelerometer (estimatedBias_ s) in
  let correctedOmega := measuredOmega - gyroscope (estimatedBias_ s) in
  (* Do exact mean propagation *)
  let est :=
    UpdateEstimate (zeta_ s) correctedAcc correctedOmega dt true true true in
  let A := slot (uninitialized _ _) (out_A est) in
  let Ba := slot (uninitialized _ _) (out_Ba est) in
  let Bw := slot (uninitialized _ _) (out_Bw est) in
  (* propagate uncertainty *)
  let w := div_scalar (covariance (gyroscopeNoiseModel_ s)) dt in
  let a := div_scalar (covariance (accelerometerNoiseModel_ s)) dt in
  let cov' := A *m cov_ s *m A^T + Bw *m w *m Bw^T + Ba *m a *m Ba^T in
  (* increment counter and time *)
  {| p_ := p_ s;
     accelerometerNoiseModel_ := accelerometerNoiseModel_ s;
     gyroscopeNoiseModel_ := gyroscopeNoiseModel_ s;
     estimatedBias_ := estimatedBias_ s;
     k_ := (k_ s + 1)%N;
     deltaTij_ := deltaTij_ s + dt;
     zeta_ := zeta_plus est;
     cov_ := cov' |}.

(* H1 and H2 of predict are never written by the source and are left out;
   bias_i is an argument that the body does not read. *)
Definition predict (s : AggregateImuReadings) (state_i : NavState F)
    (bias_i : Bias F) : NavState F :=
  let zeta := zeta_ s in
  (* Correct for initial velocity and gravity *)
  let Ri := attitude state_i in
  let Rit : Matrix3 := (matrix Ri)^T in
  let gt := deltaTij_ s *: n_gravity (p_ s) in
  let zeta1 : Vector9 :=
    stack3 (dR zeta)
           (dP zeta + Rit *m (mul_scalar (velocity state_i) (deltaTij_ s)
                              + (half * deltaTij_ s) *: gt))
           (dV zeta) in
  let zeta2 : Vector9 :=
    stack3 (dR zeta1) (dP zeta1) (dV zeta1 + Rit *m gt) in
  retract state_i zeta2.

Definition noiseModel (s : AggregateImuReadings) : Gaussian F (3 + (3 + 3)) :=
  (* Correct for application of retract, by calculating the retract
     derivative H *)
  let e := Expmap (theta s) in
  let D_R_theta := e.2 in
  let iRj : Matrix3 := matrix e.1 in
  let H : Matrix9 :=
    blocks9 D_R_theta Z_3x3 Z_3x3
            Z_3x3 iRj^T Z_3x3
            Z_3x3 Z_3x3 iRj^T in
  let HcH := H *m cov_ s *m H^T in
  Gaussian_Covariance (cov_ s) false.

Definition preintMeasCov (s : AggregateImuReadings) : Matrix9 :=
  covariance (noiseModel s).

(* A sequence of integrateMeasurement calls, oldest first; one entry is
   (measuredAcc, measuredOmega, dt). *)
Definition Measurement : Type := (Vector3 * Vector3 * F)%type.

Definition integrateAll (s : AggregateImuReadings) (ms : seq Measurement) :
    AggregateImuReadings :=
  foldl (fun s' m => integrateMeasurement s' m.1.1 m.1.2 m.2) s ms.

(* The fields that no integrateMeasurement call assigns. *)
Definition same_setup (s s' : AggregateImuReadings) : Prop :=
  [/\ p_ s' = p_ s, estimatedBias_ s' = estimatedBias_ s,
      accelerometerNoiseModel_ s' = accelerometerNoiseModel_ s
    & gyroscopeNoiseModel_ s' = gyroscopeNoiseModel_ s].

End Source.

(* --------------------------------------------------------------------- *)
(*  A small rational instance, used to run the definitions on concrete   *)
(*  inputs.  The closed-form exponential map is not rational; the        *)
(*  stand-in below answers what Rot3::Expmap answers at theta = 0 (the   *)
(*  identity rotation, with identity derivative) and the examples that   *)
(*  use it keep theta at 0.                                              *)
(* --------------------------------------------------------------------- *)

Module Rat.

Definition Expmap (theta : Vector3 rat) : Rot3 rat * Matrix3 rat :=
  (1%:M, 1%:M).
Definition inverse (M : Matrix3 rat) : Matrix3 rat := invmx M.
Definition D_rotate_R (R : Rot3 rat) (p : Vector3 rat) : Matrix3 rat :=
  R *m skewSymmetric (- p).
Definition D_rotate_p (R : Rot3 rat) (p : Vector3 rat) : Matrix3 rat := R.
Definition retract (x : NavState rat) (xi : Vector9 rat) : NavState rat :=
  mkNavState (attitude x)
             (position x + attitude x *m seg3 xi)
             (velocity x + attitude x *m seg6 xi).
Definition uninitialized m n : 'M[rat]_(m, n) := 0.

Definition UpdateEstimate :=
  UpdateEstimate Expmap inverse D_rotate_R D_rotate_p uninitialized.
Definition integrateMeasurement :=
  integrateMeasurement Expmap inverse D_rotate_R D_rotate_p uninitialized.
Definition integrateAll :=
  integrateAll Expmap inverse D_rotate_R D_rotate_p uninitialized.
Definition predict := predict retract.
Definition preintMeasCov := preintMeasCov Expmap.

(* Unit noise densities, no gravity, no bias. *)
Definition params : Params rat := mkParams 1%:M 1%:M 0.
Definition bias0 : Bias rat := mkBias 0 0.
Definition fresh : AggregateImuReadings rat :=
  AggregateImuReadings_new params bias0.

(* The unit vector (1, 1, 1). *)
Definition ones : Vector3 rat := const_mx 1.

(* One sample of pure acceleration: afterwards the velocity block of zeta
   is (1, 1, 1) and theta is still 0. *)
Definition moving : AggregateImuReadings rat :=
  integrateMeasurement fresh ones 0 1.

End Rat.

(* --------------------------------------------------------------------- *)
(*  Relations between aggregation states                                 *)
(* --------------------------------------------------------------------- *)

Section Aggregates.

Variable F : realFieldType.

(* Two aggregations with the same mutable content. *)
Definition same_aggregate (s s' : AggregateImuReadings F) : Prop :=
  [/\ zeta_ s = zeta_ s', cov_ s = cov_ s', k_ s = k_ s'
    & deltaTij_ s = deltaTij_ s'].

(* The samples of a sequence with a bias taken off beforehand. *)
Definition unbias (b : Bias F) (ms : seq (Measurement F)) :
    seq (Measurement F) :=
  [seq (m.1.1 - accelerometer b, m.1.2 - gyroscope b, m.2) | m <- ms].

End Aggregates.

(* --------------------------------------------------------------------- *)
(*  wrap/wrap.cpp                                                        *)
(* --------------------------------------------------------------------- *)

Module Wrap.

Local Close Scope ring_scope.

(* What a call leaves behind: a line on cout or cerr, the construction of a
   wrap::Module from an interface file, the emission of a toolbox. *)
Inductive stream := cout | cerr.
Inductive target := MATLAB | PYTHON.

Inductive event :=
| Print (s : stream) (text : string)
| ModuleCtor (interfacePath moduleName : string) (enable_verbose : bool)
| EmitCode (t : target) (toolboxPath : string).

(* A call returns, or throws a std::exception with its what(); other
   exceptions, which main does not catch, are not modelled. *)
Inductive result (T : Type) :=
| Returns (x : T)
| Throws (what : string).
Arguments Returns {T} x.
Arguments Throws {T} what.

Section Tool.

(* wrap::Module of Module.h: its constructor and the two emitters. *)
Variable Module : Type.
Variable Module_new : string -> string -> bool -> result Module.
Variable matlab_code : Module -> string -> result unit.
Variable python_code : Module -> string -> result unit.

Definition generate_matlab_toolbox
    (interfacePath moduleName toolboxPath headerPath : string) :
    seq event * result unit :=
  (* Parse interface file into class object *)
  match Module_new interfacePath moduleName false with
  | Throws what => ([:: ModuleCtor interfacePath moduleName false], Throws what)
  | Returns module =>
      (* Then emit MATLAB code *)
      ([:: ModuleCtor interfacePath moduleName false;
           EmitCode MATLAB toolboxPath],
       matlab_code module toolboxPath)
  end.

Definition generate_python_toolbox
    (interfacePath moduleName toolboxPath headerPath : string) :
    seq event * result unit :=
  match Module_new interfacePath moduleName false with
  | Throws what => ([:: ModuleCtor interfacePath moduleName false], Throws what)
  | Returns module =>
      (* Then emit PYTHON code *)
      ([:: ModuleCtor interfacePath moduleName false;
           EmitCode PYTHON toolboxPath],
       python_code module toolboxPath)
  end.

(* Displays usage information *)
Definition usage : seq event :=
  [:: Print cerr "wrap parses an interface file and produces a MATLAB toolbox";
      Print cerr "usage: wrap interfacePath moduleName toolboxPath headerPath";
      Print cerr "  interfacePath : *absolute* path to directory of module interface file";
      Print cerr "  moduleName    : the name of the module, interface file must be called moduleName.h";
      Print cerr "  toolboxPath   : the directory in which to generate the wrappers";
      Print cerr "  headerPath    : path to matlab.h";
      Print cerr "  (Optional) moduleType    : Specify wether to emit either python or matlab"].

(* main(argc, argv), argc being the length of argv; the result is what was
   written and called, in order, and the exit status. *)
Definition main (argv : seq string) : seq event * nat :=
  let argc := size argv in
  let arg i := nth EmptyString argv i in
  let hello := Print cout "DEBUG: Wrap called" in
  if argc < 5 then
    (hello :: Print cerr "Invalid arguments:"
       :: [seq Print cerr a | a <- argv] ++ Print cerr "" :: usage,
     0)
  else
    let body :=
      if argc == 6 then
        if String.eqb (arg 5) "python" then
          let g := generate_python_toolbox (arg 1) (arg 2) (arg 3) (arg 4) in
          (Print cout (arg 5) :: Print cerr "DEBUG: Python" :: g.1, g.2)
        else
          let g := generate_matlab_toolbox (arg 1) (arg 2) (arg 3) (arg 4) in
          (Print cout (arg 5) :: Print cerr "DEBUG: MATLAB : 5" :: g.1, g.2)
      else
        let g := generate_matlab_toolbox (arg 1) (arg 2) (arg 3) (arg 4) in
        (Print cerr "DEBUG: MATLAB : 4" :: g.1, g.2) in
    match body.2 with
    | Returns _ => (hello :: body.1, 0)
    | Throws what => (hello :: body.1 ++ [:: Print cerr what], 1)
    end.

(* The events that touch the file system. *)
Definition is_ctor (e : event) : bool :=
  if e is ModuleCtor _ _ _ then true else false.
Definition is_emit (t : target) (e : event) : bool :=
  match e, t with
  | EmitCode MATLAB _, MATLAB | EmitCode PYTHON _, PYTHON => true
  | _, _ => false
  end.

(* The target that a command line asks for, and the generator of a
   target. *)
Definition selected (argv : seq string) : target :=
  if (size argv == 6) && String.eqb (nth EmptyString argv 5) "python"
  then PYTHON else MATLAB.

Definition generate (t : target) :
    string -> string -> string -> string -> seq event * result unit :=
  match t with
  | MATLAB => generate_matlab_toolbox
  | PYTHON => generate_python_toolbox
  end.

Definition throws T (r : result T) : bool :=
  if r is Throws _ then true else false.

End Tool.

(* A stand-in Module.h for running main: a module is its name, an empty
   module name is rejected, emitting always succeeds. *)
Definition demo_new (interfacePath moduleName : string) (verbose : bool) :
    result string :=
  if String.eqb moduleName "" then Throws "no module name"
  else Returns moduleName.
Definition demo_code (m toolboxPath : string) : result unit := Returns tt.
Definition demo_main := main demo_new demo_code demo_code.

End Wrap.

(* ===================================================================== *)
(*  Properties                                                           *)
(* ===================================================================== *)

Section EigenFacts.

Variable F : realFieldType.

Lemma mul_scalarE m n (M : 'M[F]_(m, n)) (s : F) : mul_scalar M s = s *: M.
Proof. by apply/matrixP=> i j; rewrite !mxE mulrC. Qed.

Lemma div_scalarE m n (M : 'M[F]_(m, n)) (s : F) : div_scalar M s = s^-1 *: M.
Proof. by apply/matrixP=> i j; rewrite !mxE mulrC. Qed.

Lemma seg0_stack3 n (a b c : 'M[F]_(3, n)) : seg0 (stack3 a b c) = a.
Proof. by rewrite /seg0 /stack3 col_mxKu. Qed.

Lemma seg3_stack3 n (a b c : 'M[F]_(3, n)) : seg3 (stack3 a b c) = b.
Proof. by rewrite /seg3 /stack3 col_mxKd col_mxKu. Qed.

Lemma seg6_stack3 n (a b c : 'M[F]_(3, n)) : seg6 (stack3 a b c) = c.
Proof. by rewrite /seg6 /stack3 !col_mxKd. Qed.

Lemma stack3_seg n (M : 'M[F]_(3 + (3 + 3), n)) :
  stack3 (seg0 M) (seg3 M) (seg6 M) = M.
Proof. by rewrite /stack3 /seg0 /seg3 /seg6 !vsubmxK. Qed.

Lemma stack3_0 n : stack3 0 0 0 = 0 :> 'M[F]_(3 + (3 + 3), n).
Proof. by rewrite /stack3 !col_mx0. Qed.

Lemma stack3D n (a b c a' b' c' : 'M[F]_(3, n)) :
  stack3 a b c + stack3 a' b' c' = stack3 (a + a') (b + b') (c + c').
Proof. by rewrite /stack3 !add_col_mx. Qed.

Lemma blocks9D (a b c d e f g h i a' b' c' d' e' f' g' h' i' : Matrix3 F) :
  blocks9 a b c d e f g h i + blocks9 a' b' c' d' e' f' g' h' i' =
  blocks9 (a + a') (b + b') (c + c') (d + d') (e + e') (f + f')
          (g + g') (h + h') (i + i').
Proof. by rewrite /blocks9 stack3D !add_row_mx. Qed.

Lemma blocks9_1 :
  blocks9 1%:M 0 0 0 1%:M 0 0 0 1%:M = 1%:M :> Matrix9 F.
Proof.
rewrite /blocks9 /stack3 [RHS]scalar_mx_block [in RHS]scalar_mx_block.
by rewrite /block_mx -row_mx0 -col_mx0 -[row_mx (col_mx 0 0) _]block_mxEh.
Qed.

Section Blocks.

Variables b00 b03 b06 b30 b33 b36 b60 b63 b66 : Matrix3 F.
Let M := blocks9 b00 b03 b06 b30 b33 b36 b60 b63 b66.

Lemma block00_blocks9 : block00 M = b00.
Proof. by rewrite /block00 seg0_stack3 /cseg0 row_mxKl. Qed.
Lemma block03_blocks9 : block03 M = b03.
Proof. by rewrite /block03 seg0_stack3 /cseg3 row_mxKr row_mxKl. Qed.
Lemma block06_blocks9 : block06 M = b06.
Proof. by rewrite /block06 seg0_stack3 /cseg6 !row_mxKr. Qed.
Lemma block30_blocks9 : block30 M = b30.
Proof. by rewrite /block30 seg3_stack3 /cseg0 row_mxKl. Qed.
Lemma block33_blocks9 : block33 M = b33.
Proof. by rewrite /block33 seg3_stack3 /cseg3 row_mxKr row_mxKl. Qed.
Lemma block36_blocks9 : block36 M = b36.
Proof. by rewrite /block36 seg3_stack3 /cseg6 !row_mxKr. Qed.
Lemma block60_blocks9 : block60 M = b60.
Proof. by rewrite /block60 seg6_stack3 /cseg0 row_mxKl. Qed.
Lemma block63_blocks9 : block63 M = b63.
Proof. by rewrite /block63 seg6_stack3 /cseg3 row_mxKr row_mxKl. Qed.
Lemma block66_blocks9 : block66 M = b66.
Proof. by rewrite /block66 seg6_stack3 /cseg6 !row_mxKr. Qed.

End Blocks.

Section SetBlocks.

Variables (b00 b03 b06 b30 b33 b36 b60 b63 b66 B : Matrix3 F).
Let M := blocks9 b00 b03 b06 b30 b33 b36 b60 b63 b66.

Lemma set_block00_blocks9 :
  set_block00 M B = blocks9 B b03 b06 b30 b33 b36 b60 b63 b66.
Proof.
by rewrite /set_block00 block03_blocks9 block06_blocks9 block30_blocks9
           block33_blocks9 block36_blocks9 block60_blocks9 block63_blocks9
           block66_blocks9.
Qed.

Lemma set_block30_blocks9 :
  set_block30 M B = blocks9 b00 b03 b06 B b33 b36 b60 b63 b66.
Proof.
by rewrite /set_block30 block00_blocks9 block03_blocks9 block06_blocks9
           block33_blocks9 block36_blocks9 block60_blocks9 block63_blocks9
           block66_blocks9.
Qed.

Lemma set_block36_blocks9 :
  set_block36 M B = blocks9 b00 b03 b06 b30 b33 B b60 b63 b66.
Proof.
by rewrite /set_block36 block00_blocks9 block03_blocks9 block06_blocks9
           block30_blocks9 block33_blocks9 block60_blocks9 block63_blocks9
           block66_blocks9.
Qed.

Lemma set_block60_blocks9 :
  set_block60 M B = blocks9 b00 b03 b06 b30 b33 b36 B b63 b66.
Proof.
by rewrite /set_block60 block00_blocks9 block03_blocks9 block06_blocks9
           block30_blocks9 block33_blocks9 block36_blocks9 block63_blocks9
           block66_blocks9.
Qed.

End SetBlocks.

Lemma skewSymmetricN (w : Vector3 F) : skewSymmetric (- w) = - skewSymmetric w.
Proof.
apply/matrixP=> i j; rewrite !mxE.
by case: (val i) => [|[|[|?]]]; case: (val j) => [|[|[|?]]];
   rewrite ?opprK ?oppr0.
Qed.

Lemma skewSymmetric0 : skewSymmetric (0 : Vector3 F) = 0.
Proof.
apply/matrixP=> i j; rewrite !mxE.
by case: (val i) => [|[|[|?]]]; case: (val j) => [|[|[|?]]];
   rewrite ?oppr0.
Qed.

End EigenFacts.

Section MeanPropagator.

Variable F : realFieldType.
Variable Expmap : Vector3 F -> Rot3 F * Matrix3 F.
Variable inverse : Matrix3 F -> Matrix3 F.
Variables D_rotate_R D_rotate_p : Rot3 F -> Vector3 F -> Matrix3 F.
Variable uninitialized : forall m n, 'M[F]_(m, n).

Local Notation UpdateEstimate :=
  (UpdateEstimate Expmap inverse D_rotate_R D_rotate_p uninitialized).

Implicit Types (zeta : Vector9 F) (acc omega : Vector3 F) (dt : F).

(* The three blocks of the propagated mean, whatever was requested. *)
Lemma zeta_plusE zeta acc omega dt A Ba Bw :
  zeta_plus (UpdateEstimate zeta acc omega dt A Ba Bw) =
  stack3 (dR zeta + inverse (Expmap (dR zeta)).2 *m (dt *: omega))
         (dP zeta + dt *: dV zeta
          + (half * dt) *: ((Expmap (dR zeta)).1 *m (dt *: acc)))
         (dV zeta + (Expmap (dR zeta)).1 *m (dt *: acc)).
Proof. by rewrite /UpdateEstimate /= !mul_scalarE. Qed.

(* A zero measurement moves the position block by v dt and nothing else. *)
Lemma zeta_plus_rest zeta dt A Ba Bw :
  zeta_plus (UpdateEstimate zeta 0 0 dt A Ba Bw) =
  stack3 (dR zeta) (dP zeta + dt *: dV zeta) (dV zeta).
Proof. by rewrite zeta_plusE !scaler0 !mulmx0 scaler0 !addr0. Qed.

(** C3: one step of the Mean Propagator with dt > 0 returns
    theta' = theta + D^-1 (omega dt), p' = p + v dt + 0.5 dt Radt and
    v' = v + Radt, where D is the derivative of Exp at theta and
    Radt = Exp(theta) (accel dt). *)
Theorem UpdateEstimate_mean zeta acc omega dt A Ba Bw :
  0 < dt ->
  let D := (Expmap (dR zeta)).2 in
  let Radt := (Expmap (dR zeta)).1 *m (dt *: acc) in
  let zeta' := zeta_plus (UpdateEstimate zeta acc omega dt A Ba Bw) in
  [/\ dR zeta' = dR zeta + inverse D *m (dt *: omega),
      dP zeta' = dP zeta + dt *: dV zeta + (half * dt) *: Radt
    & dV zeta' = dV zeta + Radt].
Proof.
move=> _ D Radt zeta'; rewrite /zeta' zeta_plusE.
by rewrite /dR /dP /dV seg0_stack3 seg3_stack3 seg6_stack3.
Qed.

(** C10: the mean returned by the Mean Propagator is the same whichever of
    the optional Jacobians A, Ba, Bw are requested. *)
Theorem UpdateEstimate_mean_flags zeta acc omega dt A Ba Bw A' Ba' Bw' :
  zeta_plus (UpdateEstimate zeta acc omega dt A Ba Bw) =
  zeta_plus (UpdateEstimate zeta acc omega dt A' Ba' Bw').
Proof. by rewrite !zeta_plusE. Qed.

(* The state Jacobian as the source builds it, block by block. *)
Lemma out_A_blocks zeta acc omega dt Ba Bw :
  let D_R_theta := (Expmap (dR zeta)).2 in
  let R := (Expmap (dR zeta)).1 in
  let w_dt := dt *: omega in
  let D_Radt_theta := D_rotate_R R (dt *: acc) *m D_R_theta in
  out_A (UpdateEstimate zeta acc omega dt true Ba Bw) =
  Some (blocks9 (1%:M + skewSymmetric ((- half) *: w_dt)) 0 0
                ((half * dt) *: D_Radt_theta) 1%:M (dt *: 1%:M)
                D_Radt_theta 0 1%:M).
Proof.
rewrite /UpdateEstimate /= /slot /= !mul_scalarE -blocks9_1.
rewrite block00_blocks9 set_block00_blocks9 set_block30_blocks9.
by rewrite set_block36_blocks9 set_block60_blocks9.
Qed.

(* The three Jacobians in closed form. *)
Lemma UpdateEstimate_outputs zeta acc omega dt :
  let D_R_theta := (Expmap (dR zeta)).2 in
  let R := (Expmap (dR zeta)).1 in
  let D_Radt_theta := D_rotate_R R (dt *: acc) *m D_R_theta in
  let D_Radt_adt := D_rotate_p R (dt *: acc) in
  let est := UpdateEstimate zeta acc omega dt true true true in
  [/\ out_A est =
      Some (1%:M +
            blocks9 (- skewSymmetric (half *: (dt *: omega))) 0 0
                    ((half * dt) *: D_Radt_theta) 0 (dt *: 1%:M)
                    D_Radt_theta 0 0),
      out_Ba est =
      Some (stack3 0 ((half * dt ^+ 2) *: D_Radt_adt) (dt *: D_Radt_adt))
    & out_Bw est = Some (stack3 (dt *: inverse D_R_theta) 0 0)].
Proof.
move=> D_R_theta R D_Radt_theta D_Radt_adt est; split.
- rewrite /est out_A_blocks -blocks9_1 blocks9D !addr0 !add0r.
  by rewrite scaleNr skewSymmetricN.
- rewrite /est /UpdateEstimate /= /slot /= !mul_scalarE scalerA.
  by rewrite expr2 mulrA.
- by rewrite /est /UpdateEstimate /= !mul_scalarE.
Qed.

(** C6: with the Jacobians requested, A is the 9x9 identity plus
    corrections: minus the skew-symmetric matrix of half the angular
    impulse in the rotation-self block, the exact derivative of Radt with
    respect to theta (D_Radt_R D_R_theta) scaled by 0.5 dt in the
    position-vs-rotation block and unscaled in the velocity-vs-rotation
    block, dt times the identity in the position-vs-velocity block; Ba has
    blocks (0, D_Radt_adt 0.5 dt^2, D_Radt_adt dt) and Bw has blocks
    (D^-1 dt, 0, 0). *)
Theorem UpdateEstimate_jacobians zeta acc omega dt :
  let D_R_theta := (Expmap (dR zeta)).2 in
  let R := (Expmap (dR zeta)).1 in
  let D_Radt_theta := D_rotate_R R (dt *: acc) *m D_R_theta in
  let D_Radt_adt := D_rotate_p R (dt *: acc) in
  let est := UpdateEstimate zeta acc omega dt true true true in
  [/\ out_A est =
      Some (1%:M +
            blocks9 (- skewSymmetric (half *: (dt *: omega))) 0 0
                    ((half * dt) *: D_Radt_theta) 0 (dt *: 1%:M)
                    D_Radt_theta 0 0),
      out_Ba est =
      Some (stack3 0 ((half * dt ^+ 2) *: D_Radt_adt) (dt *: D_Radt_adt))
    & out_Bw est = Some (stack3 (dt *: inverse D_R_theta) 0 0)].
Proof. exact: UpdateEstimate_outputs. Qed.

End MeanPropagator.

(* --------------------------------------------------------------------- *)
(*  Integrator, Predictor, Covariance Retractor                          *)
(* --------------------------------------------------------------------- *)

Section Integrator.

Variable F : realFieldType.
Variable Expmap : Vector3 F -> Rot3 F * Matrix3 F.
Variable inverse : Matrix3 F -> Matrix3 F.
Variables D_rotate_R D_rotate_p : Rot3 F -> Vector3 F -> Matrix3 F.
Variable retract : NavState F -> Vector9 F -> NavState F.
Variable uninitialized : forall m n, 'M[F]_(m, n).

Local Notation UpdateEstimate :=
  (UpdateEstimate Expmap inverse D_rotate_R D_rotate_p uninitialized).
Local Notation integrateMeasurement :=
  (integrateMeasurement Expmap inverse D_rotate_R D_rotate_p uninitialized).
Local Notation integrateAll :=
  (integrateAll Expmap inverse D_rotate_R D_rotate_p uninitialized).
Local Notation predict := (predict retract).
Local Notation noiseModel := (noiseModel Expmap).
Local Notation preintMeasCov := (preintMeasCov Expmap).
Local Notation state := (AggregateImuReadings F).

Implicit Types (s : state) (acc omega : Vector3 F) (dt : F).
Implicit Types (p : Params F) (b : Bias F) (ms : seq (Measurement F)).

(* With everything requested, the three slots are written. *)
Lemma UpdateEstimate_writes zeta acc omega dt :
  let est := UpdateEstimate zeta acc omega dt true true true in
  exists A Ba Bw,
    [/\ out_A est = Some A, out_Ba est = Some Ba & out_Bw est = Some Bw].
Proof. by rewrite /UpdateEstimate /=; do 3!eexists; split. Qed.

(* One call, field by field. *)
Lemma integrateMeasurementE s acc omega dt A Ba Bw :
  let est := UpdateEstimate (zeta_ s) (acc - accelerometer (estimatedBias_ s))
               (omega - gyroscope (estimatedBias_ s)) dt true true true in
  out_A est = Some A -> out_Ba est = Some Ba -> out_Bw est = Some Bw ->
  integrateMeasurement s acc omega dt =
  {| p_ := p_ s;
     accelerometerNoiseModel_ := accelerometerNoiseModel_ s;
     gyroscopeNoiseModel_ := gyroscopeNoiseModel_ s;
     estimatedBias_ := estimatedBias_ s;
     k_ := (k_ s + 1)%N;
     deltaTij_ := deltaTij_ s + dt;
     zeta_ := zeta_plus est;
     cov_ := A *m cov_ s *m A^T
             + Bw *m div_scalar (covariance (gyroscopeNoiseModel_ s)) dt *m Bw^T
             + Ba *m div_scalar (covariance (accelerometerNoiseModel_ s)) dt
               *m Ba^T |}.
Proof.
move=> est eA eBa eBw; rewrite /integrateMeasurement.
by rewrite -/est eA eBa eBw.
Qed.

Lemma zeta_integrateMeasurement s acc omega dt :
  zeta_ (integrateMeasurement s acc omega dt) =
  zeta_plus (UpdateEstimate (zeta_ s) (acc - accelerometer (estimatedBias_ s))
               (omega - gyroscope (estimatedBias_ s)) dt true true true).
Proof. by []. Qed.

(* A sample equal to the bias: the position block moves by v dt. *)
Lemma zeta_rest s dt :
  zeta_ (integrateMeasurement s (accelerometer (estimatedBias_ s))
           (gyroscope (estimatedBias_ s)) dt) =
  stack3 (dR (zeta_ s)) (dP (zeta_ s) + dt *: dV (zeta_ s)) (dV (zeta_ s)).
Proof. by rewrite zeta_integrateMeasurement !subrr zeta_plus_rest. Qed.

Lemma zeta_rest_fixed s dt :
  dt != 0 ->
  zeta_ (integrateMeasurement s (accelerometer (estimatedBias_ s))
           (gyroscope (estimatedBias_ s)) dt) = zeta_ s ->
  dV (zeta_ s) = 0.
Proof.
move=> dt_neq0; rewrite zeta_rest => e.
have: dP (zeta_ s) + dt *: dV (zeta_ s) = dP (zeta_ s).
  by rewrite -[LHS](seg3_stack3 (dR (zeta_ s)) _ (dV (zeta_ s))) e.
move/eqP; rewrite -subr_eq0 addrC addKr scaler_eq0 (negPf dt_neq0) /=.
by move/eqP.
Qed.

Lemma integrateAll_setup s ms : same_setup s (integrateAll s ms).
Proof.
elim: ms s => [|m ms IH] s //=.
case: (IH (integrateMeasurement s m.1.1 m.1.2 m.2)) => e1 e2 e3 e4.
by split; rewrite ?e1 ?e2 ?e3 ?e4.
Qed.

Lemma integrateAll_rcons s ms m :
  integrateAll s (rcons ms m) =
  integrateMeasurement (integrateAll s ms) m.1.1 m.1.2 m.2.
Proof. by rewrite /integrateAll -cats1 foldl_cat. Qed.

(* States reached from the constructor keep its parameters, bias and noise
   models. *)
Lemma integrateAll_new p b ms :
  let s := integrateAll (AggregateImuReadings_new p b) ms in
  [/\ p_ s = p, estimatedBias_ s = b,
      covariance (accelerometerNoiseModel_ s) = accelerometerCovariance p
    & covariance (gyroscopeNoiseModel_ s) = gyroscopeCovariance p].
Proof.
move=> s.
case: (integrateAll_setup (AggregateImuReadings_new p b) ms) => e1 e2 e3 e4.
by split; rewrite /s ?e1 ?e2 ?e3 ?e4.
Qed.

(** C4: an integrate call with dt > 0 subtracts the bias snapshot from the
    raw samples, replaces zeta by the Mean Propagator's output for the
    corrected measurements (all three Jacobians requested), sets
    cov' = A cov A^T + Bw (Sigma_gyro / dt) Bw^T + Ba (Sigma_accel / dt) Ba^T
    with the noise covariances of Params, and increments count by 1 and
    elapsed by dt. *)
Theorem integrateMeasurement_step p b ms acc omega dt :
  0 < dt ->
  let s := integrateAll (AggregateImuReadings_new p b) ms in
  let s' := integrateMeasurement s acc omega dt in
  let correctedAcc := acc - accelerometer b in
  let correctedOmega := omega - gyroscope b in
  let est :=
    UpdateEstimate (zeta_ s) correctedAcc correctedOmega dt true true true in
  exists A Ba Bw,
    [/\ out_A est = Some A, out_Ba est = Some Ba & out_Bw est = Some Bw] /\
    [/\ zeta_ s' = zeta_plus est,
        cov_ s' = A *m cov_ s *m A^T
                  + Bw *m (dt^-1 *: gyroscopeCovariance p) *m Bw^T
                  + Ba *m (dt^-1 *: accelerometerCovariance p) *m Ba^T,
        k_ s' = (k_ s + 1)%N
      & deltaTij_ s' = deltaTij_ s + dt].
Proof.
move=> _ s s' cA cW est.
have [_ eb ea eg] := integrateAll_new p b ms.
have [A [Ba [Bw [eA eBa eBw]]]] := UpdateEstimate_writes (zeta_ s) cA cW dt.
exists A, Ba, Bw; split=> //.
have := @integrateMeasurementE s acc omega dt A Ba Bw.
rewrite -/s in eb ea eg *; rewrite eb ea eg -/cA -/cW -/est -/s' => -> //.
by rewrite /= !div_scalarE.
Qed.

(** C2 (as the source has it): integrateMeasurement never looks at the sign
    of dt.  Also for dt <= 0 it returns normally and assigns every mutable
    field exactly as for a valid dt: zeta is replaced by the Mean
    Propagator's output, cov by the covariance recursion (with the noise
    covariances divided by dt as written), count is incremented by 1 and
    elapsed increased by dt; so the state is modified. *)
Theorem integrateMeasurement_unvalidated s acc omega dt :
  dt <= 0 ->
  let s' := integrateMeasurement s acc omega dt in
  let est :=
    UpdateEstimate (zeta_ s) (acc - accelerometer (estimatedBias_ s))
      (omega - gyroscope (estimatedBias_ s)) dt true true true in
  (exists A Ba Bw,
    [/\ out_A est = Some A, out_Ba est = Some Ba & out_Bw est = Some Bw] /\
    [/\ zeta_ s' = zeta_plus est,
        cov_ s' =
          A *m cov_ s *m A^T
          + Bw *m div_scalar (covariance (gyroscopeNoiseModel_ s)) dt *m Bw^T
          + Ba *m div_scalar (covariance (accelerometerNoiseModel_ s)) dt
            *m Ba^T,
        k_ s' = (k_ s + 1)%N
      & deltaTij_ s' = deltaTij_ s + dt])
  /\ s' <> s.
Proof.
move=> _ s' est; split; last first.
  by move/(congr1 (@k_ F))/eqP; rewrite /= addn1 gtn_eqF.
have [A [Ba [Bw [eA eBa eBw]]]] :=
  UpdateEstimate_writes (zeta_ s) (acc - accelerometer (estimatedBias_ s))
    (omega - gyroscope (estimatedBias_ s)) dt.
exists A, Ba, Bw; split=> //.
by rewrite /s' (integrateMeasurementE eA eBa eBw).
Qed.

(** C8 (as the source has it): integrating a sample equal to the bias with
    dt > 0 leaves the rotation and velocity blocks of zeta unchanged and
    advances the position block by v dt, so zeta is unchanged exactly when
    its velocity block is zero; cov becomes A cov A^T plus the discretised
    noise terms, A being the identity plus the dt I position-vs-velocity
    block and the rotation couplings, which is the noise terms alone when
    cov = 0. *)
Theorem zero_motion p b ms dt :
  0 < dt ->
  let s := integrateAll (AggregateImuReadings_new p b) ms in
  let s' := integrateMeasurement s (accelerometer b) (gyroscope b) dt in
  let R := (Expmap (dR (zeta_ s))).1 in
  let D := (Expmap (dR (zeta_ s))).2 in
  let D_Radt_theta := D_rotate_R R 0 *m D in
  let A : Matrix9 F :=
    1%:M + blocks9 0 0 0
                   ((half * dt) *: D_Radt_theta) 0 (dt *: 1%:M)
                   D_Radt_theta 0 0 in
  let Ba : Matrix93 F :=
    stack3 0 ((half * dt ^+ 2) *: D_rotate_p R 0) (dt *: D_rotate_p R 0) in
  let Bw : Matrix93 F := stack3 (dt *: inverse D) 0 0 in
  let noise :=
    Bw *m (dt^-1 *: gyroscopeCovariance p) *m Bw^T
    + Ba *m (dt^-1 *: accelerometerCovariance p) *m Ba^T in
  [/\ zeta_ s' =
      stack3 (dR (zeta_ s)) (dP (zeta_ s) + dt *: dV (zeta_ s)) (dV (zeta_ s)),
      zeta_ s' = zeta_ s <-> dV (zeta_ s) = 0,
      cov_ s' = A *m cov_ s *m A^T + noise
    & cov_ s = 0 -> cov_ s' = noise].
Proof.
move=> dt_gt0 s s' R D D_Radt_theta A Ba Bw noise.
have [_ eb ea eg] := integrateAll_new p b ms.
have [] := UpdateEstimate_outputs Expmap inverse D_rotate_R D_rotate_p
             uninitialized (zeta_ s) 0 0 dt.
rewrite !scaler0 skewSymmetric0 oppr0 -/R -/D -/D_Radt_theta -/A -/Ba -/Bw.
move=> eA eBa eBw.
have es' : s' = _ := @integrateMeasurementE s _ _ dt A Ba Bw _ _ _.
move: es'; rewrite -/s in eb ea eg *; rewrite eb !subrr ea eg => /(_ eA eBa eBw) es'.
have ez : zeta_ s' =
    stack3 (dR (zeta_ s)) (dP (zeta_ s) + dt *: dV (zeta_ s)) (dV (zeta_ s)).
  by rewrite /s' -{1 2}eb zeta_rest.
have ec : cov_ s' = A *m cov_ s *m A^T + noise.
  by rewrite es' /= !div_scalarE -addrA.
split=> //.
- split=> [e|v0]; last by rewrite ez v0 scaler0 addr0 -v0 /dR /dP /dV stack3_seg.
  by apply: (@zeta_rest_fixed s dt); rewrite ?eb // gt_eqF.
- by move=> c0; rewrite ec c0 mulmx0 mul0mx add0r.
Qed.

(** C1 (what the source returns): noiseModel builds the retract Jacobian H
    and the product H cov H^T but hands cov_ itself to the noise model, so
    the consumer-facing covariance preintMeasCov is the raw cov_, not the
    retracted covariance. *)
Theorem preintMeasCov_raw s : preintMeasCov s = cov_ s.
Proof. by []. Qed.

(** C5: predict adds Rt (v_i T + 0.5 T^2 g) to the position block of zeta
    and Rt T g to its velocity block, Rt being the transpose of the initial
    attitude, v_i the initial velocity, T the elapsed time and g the gravity
    of Params, and returns initial_state.retract of the corrected zeta; with
    zero initial velocity and zero gravity it returns
    initial_state.retract(zeta). *)
Theorem predict_correction s (state_i : NavState F) (bias_i : Bias F) :
  let T := deltaTij_ s in
  let g := n_gravity (p_ s) in
  let Rt := (attitude state_i)^T in
  let p_correction := Rt *m (T *: velocity state_i + (half * T ^+ 2) *: g) in
  let v_correction := Rt *m (T *: g) in
  predict s state_i bias_i =
    retract state_i (zeta_ s + stack3 0 p_correction v_correction)
  /\ (velocity state_i = 0 -> g = 0 ->
      predict s state_i bias_i = retract state_i (zeta_ s)).
Proof.
move=> T g Rt pc vc.
have e : predict s state_i bias_i =
    retract state_i (zeta_ s + stack3 0 pc vc).
  rewrite /predict /dR /dP /dV seg0_stack3 seg3_stack3 seg6_stack3.
  rewrite -[X in X + stack3 _ _ _](stack3_seg (zeta_ s)) stack3D addr0.
  by rewrite mul_scalarE scalerA -mulrA -expr2.
split=> // v0 g0; rewrite e /pc /vc v0 g0 !scaler0 addr0 !mulmx0.
by rewrite stack3_0 addr0.
Qed.

End Integrator.

(* --------------------------------------------------------------------- *)
(*  The statements above on the rational instance                        *)
(* --------------------------------------------------------------------- *)

Lemma UpdateEstimate_mean_witness :
  0 < (1 : rat) /\
  let zeta' := zeta_plus (Rat.UpdateEstimate 0 Rat.ones 0 1 true true true) in
  let Radt := (Rat.Expmap (dR 0)).1 *m (1 *: Rat.ones) in
  [/\ dR zeta' = dR 0 + Rat.inverse (Rat.Expmap (dR 0)).2 *m (1 *: 0),
      dP zeta' = dP 0 + 1 *: dV 0 + (half * 1) *: Radt
    & dV zeta' = dV 0 + Radt].
Proof.
split; first exact: ltr01.
exact: (@UpdateEstimate_mean rat Rat.Expmap Rat.inverse Rat.D_rotate_R
          Rat.D_rotate_p Rat.uninitialized 0 Rat.ones 0 1 true true true
          ltr01).
Defined.

Lemma integrateMeasurement_step_witness :
  0 < (1 : rat) /\
  let s' := Rat.integrateMeasurement Rat.fresh Rat.ones 0 1 in
  let est :=
    Rat.UpdateEstimate (zeta_ Rat.fresh) (Rat.ones - 0) (0 - 0) 1
      true true true in
  exists A Ba Bw,
    [/\ out_A est = Some A, out_Ba est = Some Ba & out_Bw est = Some Bw] /\
    [/\ zeta_ s' = zeta_plus est,
        cov_ s' = A *m cov_ Rat.fresh *m A^T
                  + Bw *m (1^-1 *: 1%:M) *m Bw^T
                  + Ba *m (1^-1 *: 1%:M) *m Ba^T,
        k_ s' = (k_ Rat.fresh + 1)%N
      & deltaTij_ s' = deltaTij_ Rat.fresh + 1].
Proof.
split; first exact: ltr01.
exact: (@integrateMeasurement_step rat Rat.Expmap Rat.inverse Rat.D_rotate_R
          Rat.D_rotate_p Rat.uninitialized Rat.params Rat.bias0 [::]
          Rat.ones 0 1 ltr01).
Defined.

Lemma integrateMeasurement_unvalidated_witness :
  -1 <= (0 : rat) /\
  Rat.integrateMeasurement Rat.fresh 0 0 (-1) <> Rat.fresh.
Proof.
split; first exact: lerN10.
by have [] :=
  @integrateMeasurement_unvalidated rat Rat.Expmap Rat.inverse
    Rat.D_rotate_R Rat.D_rotate_p Rat.uninitialized Rat.fresh 0 0 (-1)
    (lerN10 _).
Defined.

Lemma zero_motion_witness :
  0 < (1 : rat) /\
  let s' := Rat.integrateMeasurement Rat.fresh 0 0 1 in
  zeta_ s' = zeta_ Rat.fresh.
Proof.
split; first exact: ltr01.
have [_ [_ same] _ _] :=
  @zero_motion rat Rat.Expmap Rat.inverse Rat.D_rotate_R Rat.D_rotate_p
    Rat.uninitialized Rat.params Rat.bias0 [::] 1 ltr01.
by apply: same; rewrite /dV /seg6 !linear0.
Defined.

Lemma predict_correction_witness :
  let state_i : NavState rat := mkNavState 1%:M 0 0 in
  Rat.predict Rat.fresh state_i Rat.bias0 =
  Rat.retract state_i (zeta_ Rat.fresh).
Proof.
move=> state_i.
have [_ same] :=
  @predict_correction rat Rat.retract Rat.fresh state_i Rat.bias0.
exact: same.
Defined.

(* C2, concretely: a call with dt = -1 on the fresh state returns with
   count = 1 and elapsed = -1. *)
Lemma integrateMeasurement_negative_dt :
  -1 <= (0 : rat) /\
  let s' := Rat.integrateMeasurement Rat.fresh 0 0 (-1) in
  [/\ k_ s' = 1%N, deltaTij_ s' = -1 & s' <> Rat.fresh].
Proof.
split; first exact: lerN10.
move=> s'; split; first by [].
  by rewrite /= add0r.
by move/(congr1 (@k_ rat)).
Qed.

(* C8, concretely: after one sample of acceleration (1, 1, 1) the velocity
   block is (1, 1, 1); a sample equal to the (zero) bias then changes
   zeta. *)
Lemma zero_motion_changes_zeta :
  0 < (1 : rat) /\
  zeta_ (Rat.integrateMeasurement Rat.moving
           (accelerometer (estimatedBias_ Rat.moving))
           (gyroscope (estimatedBias_ Rat.moving)) 1)
  <> zeta_ Rat.moving.
Proof.
split; first exact: ltr01.
move/(zeta_rest_fixed (oner_neq0 _)).
rewrite -[zeta_ _]/(zeta_plus (Rat.UpdateEstimate 0 (Rat.ones - 0) (0 - 0) 1
                                 true true true)).
rewrite /Rat.UpdateEstimate zeta_plusE /dV seg6_stack3 /seg6 !linear0.
rewrite add0r addr0 scale1r mul1mx => /matrixP/(_ 0 0).
by rewrite !mxE => /eqP; rewrite oner_eq0.
Qed.

(* ===================================================================== *)
(*  Further properties of the aggregation                                *)
(* ===================================================================== *)

Section BlockProducts.

Variable F : realFieldType.




Lemma stack3_mul n k (a b c : 'M[F]_(3, n)) (x : 'M[F]_(n, k)) :
  stack3 a b c *m x = stack3 (a *m x) (b *m x) (c *m x).
Proof. by rewrite /stack3 !mul_col_mx. Qed.


Lemma stack3_tr n (a b c : 'M[F]_(3, n)) :
  (stack3 a b c)^T = row_mx a^T (row_mx b^T c^T).
Proof. by rewrite /stack3 !tr_col_mx. Qed.

(* B M B^T for a stacked B, block by block. *)
Lemma stack3_congr n (a b c : 'M[F]_(3, n)) (M : 'M[F]_n) :
  stack3 a b c *m M *m (stack3 a b c)^T =
  blocks9 (a *m M *m a^T) (a *m M *m b^T) (a *m M *m c^T)
          (b *m M *m a^T) (b *m M *m b^T) (b *m M *m c^T)
          (c *m M *m a^T) (c *m M *m b^T) (c *m M *m c^T).
Proof. by rewrite stack3_tr !stack3_mul /blocks9 !mul_mx_row. Qed.

End BlockProducts.

Section MeanPropagatorMore.

Variable F : realFieldType.
Variable Expmap : Vector3 F -> Rot3 F * Matrix3 F.
Variable inverse : Matrix3 F -> Matrix3 F.
Variables D_rotate_R D_rotate_p : Rot3 F -> Vector3 F -> Matrix3 F.
Variable uninitialized : forall m n, 'M[F]_(m, n).

Local Notation UpdateEstimate :=
  (UpdateEstimate Expmap inverse D_rotate_R D_rotate_p uninitialized).

Implicit Types (zeta : Vector9 F) (acc omega : Vector3 F) (dt : F).

(* The blocks of the propagated mean, one at a time. *)
Lemma dR_zeta_plus zeta acc omega dt A Ba Bw :
  dR (zeta_plus (UpdateEstimate zeta acc omega dt A Ba Bw)) =
  dR zeta + inverse (Expmap (dR zeta)).2 *m (dt *: omega).
Proof. by rewrite zeta_plusE /dR seg0_stack3. Qed.

Lemma dP_zeta_plus zeta acc omega dt A Ba Bw :
  dP (zeta_plus (UpdateEstimate zeta acc omega dt A Ba Bw)) =
  dP zeta + dt *: dV zeta
  + (half * dt) *: ((Expmap (dR zeta)).1 *m (dt *: acc)).
Proof. by rewrite zeta_plusE /dP seg3_stack3. Qed.

Lemma dV_zeta_plus zeta acc omega dt A Ba Bw :
  dV (zeta_plus (UpdateEstimate zeta acc omega dt A Ba Bw)) =
  dV zeta + (Expmap (dR zeta)).1 *m (dt *: acc).
Proof. by rewrite zeta_plusE /dV seg6_stack3. Qed.

(** X1: a step of zero duration returns the mean it was given, whatever the
    measurements are. *)
Theorem UpdateEstimate_dt0 zeta acc omega A Ba Bw :
  zeta_plus (UpdateEstimate zeta acc omega 0 A Ba Bw) = zeta.
Proof.
rewrite zeta_plusE !scale0r mulr0 scale0r !mulmx0 !addr0.
by rewrite /dR /dP /dV stack3_seg.
Qed.

(** X2: within one step the accelerometer sample does not reach the rotation
    block of the mean, and the gyroscope sample reaches neither the position
    nor the velocity block. *)
Theorem UpdateEstimate_separation zeta acc acc' omega omega' dt A Ba Bw :
  let z := zeta_plus (UpdateEstimate zeta acc omega dt A Ba Bw) in
  dR z = dR (zeta_plus (UpdateEstimate zeta acc' omega dt A Ba Bw)) /\
  (dP z = dP (zeta_plus (UpdateEstimate zeta acc omega' dt A Ba Bw)) /\
   dV z = dV (zeta_plus (UpdateEstimate zeta acc omega' dt A Ba Bw))).
Proof.
move=> z; rewrite /z; split; last split.
- by rewrite [LHS]dR_zeta_plus [RHS]dR_zeta_plus.
- by rewrite [LHS]dP_zeta_plus [RHS]dP_zeta_plus.
- by rewrite [LHS]dV_zeta_plus [RHS]dV_zeta_plus.
Qed.




End MeanPropagatorMore.

Section IntegratorMore.

Variable F : realFieldType.
Variable Expmap : Vector3 F -> Rot3 F * Matrix3 F.
Variable inverse : Matrix3 F -> Matrix3 F.
Variables D_rotate_R D_rotate_p : Rot3 F -> Vector3 F -> Matrix3 F.
Variable retract : NavState F -> Vector9 F -> NavState F.
Variable uninitialized : forall m n, 'M[F]_(m, n).

Local Notation UpdateEstimate :=
  (UpdateEstimate Expmap inverse D_rotate_R D_rotate_p uninitialized).
Local Notation integrateMeasurement :=
  (integrateMeasurement Expmap inverse D_rotate_R D_rotate_p uninitialized).
Local Notation integrateAll :=
  (integrateAll Expmap inverse D_rotate_R D_rotate_p uninitialized).
Local Notation predict := (predict retract).
Local Notation preintMeasCov := (preintMeasCov Expmap).
Local Notation state := (AggregateImuReadings F).
Local Notation new := (@AggregateImuReadings_new F).

Implicit Types (s : state) (acc omega : Vector3 F) (dt : F).
Implicit Types (p : Params F) (b : Bias F) (ms : seq (Measurement F)).

Lemma k_integrateMeasurement s acc omega dt :
  k_ (integrateMeasurement s acc omega dt) = (k_ s + 1)%N.
Proof. by []. Qed.

Lemma deltaTij_integrateMeasurement s acc omega dt :
  deltaTij_ (integrateMeasurement s acc omega dt) = deltaTij_ s + dt.
Proof. by []. Qed.

(* Counter and clock after a sequence of calls, from any state. *)
Lemma integrateAll_counters s ms :
  k_ (integrateAll s ms) = (k_ s + size ms)%N /\
  deltaTij_ (integrateAll s ms) = deltaTij_ s + \sum_(m <- ms) m.2.
Proof.
elim/last_ind: ms => [|ms m [IHk IHt]] /=.
  by rewrite addn0 big_nil addr0.
rewrite integrateAll_rcons size_rcons -cats1 big_cat big_seq1.
rewrite k_integrateMeasurement deltaTij_integrateMeasurement IHk IHt.
by rewrite addn1 addnS addrA.
Qed.

(** X7: after any sequence of calls on a freshly constructed aggregation,
    the sample count is the number of calls and the elapsed time is the sum
    of their time steps. *)
Theorem integrateAll_count_elapsed p b ms :
  k_ (integrateAll (new p b) ms) = size ms /\
  deltaTij_ (integrateAll (new p b) ms) = \sum_(m <- ms) m.2.
Proof.
have [-> ->] := integrateAll_counters (new p b) ms.
by rewrite add0n add0r.
Qed.

(** X8: along a sequence of calls with positive time steps the elapsed time
    is never negative and never decreases, and the sample count never
    decreases: after a prefix of the calls both are at most what they are
    after all of them. *)
Theorem elapsed_monotone p b ms n :
  all (fun m : Measurement F => 0 < m.2) ms ->
  let s := integrateAll (new p b) (take n ms) in
  let s' := integrateAll (new p b) ms in
  [/\ 0 <= deltaTij_ s, deltaTij_ s <= deltaTij_ s' & (k_ s <= k_ s')%N].
Proof.
move=> valid s s'.
have pos (r : seq (Measurement F)) :
    all (fun m : Measurement F => 0 < m.2) r -> 0 <= \sum_(m <- r) m.2.
  move=> /allP ok; rewrite big_seq; apply: sumr_ge0 => m m_r.
  exact/ltW/ok.
have valid_cat : all (fun m : Measurement F => 0 < m.2) (take n ms ++ drop n ms).
  by rewrite cat_take_drop.
move: valid_cat; rewrite all_cat => /andP[valid1 valid2].
have [ek et] := integrateAll_counters (new p b) (take n ms).
have [ek' et'] := integrateAll_counters (new p b) ms.
rewrite /s /s' ek et ek' et' !add0r !add0n; split.
- exact: pos.
- by rewrite -{2}(cat_take_drop n ms) big_cat /= lerDl pos.
- by rewrite size_take; case: ltnP => // /ltnW.
Qed.

(** X9: no sequence of calls touches the parameters, the bias snapshot or
    the two sensor noise models that the constructor installed. *)
Theorem integrateAll_keeps_setup p b ms :
  let s := integrateAll (new p b) ms in
  [/\ p_ s = p, estimatedBias_ s = b,
      accelerometerNoiseModel_ s =
        Gaussian_Covariance (accelerometerCovariance p) true
    & gyroscopeNoiseModel_ s =
        Gaussian_Covariance (gyroscopeCovariance p) true].
Proof.
move=> s; case: (integrateAll_setup Expmap inverse D_rotate_R D_rotate_p
                   uninitialized (new p b) ms) => e1 e2 e3 e4.
by split; rewrite /s ?e1 ?e2 ?e3 ?e4.
Qed.

(* One call on two aggregations that agree, one with a bias and one with
   none but fed the corrected sample. *)
Lemma integrateMeasurement_unbias s s0 acc omega dt :
  same_aggregate s s0 ->
  covariance (gyroscopeNoiseModel_ s) = covariance (gyroscopeNoiseModel_ s0) ->
  covariance (accelerometerNoiseModel_ s) =
    covariance (accelerometerNoiseModel_ s0) ->
  estimatedBias_ s0 = mkBias 0 0 ->
  same_aggregate
    (integrateMeasurement s acc omega dt)
    (integrateMeasurement s0 (acc - accelerometer (estimatedBias_ s))
       (omega - gyroscope (estimatedBias_ s)) dt).
Proof.
move=> [ez ec ek et] eg ea eb0.
set cA := acc - _; set cW := omega - _.
have [A [Ba [Bw [eA eBa eBw]]]] := UpdateEstimate_writes Expmap inverse
  D_rotate_R D_rotate_p uninitialized (zeta_ s) cA cW dt.
have e0 : UpdateEstimate (zeta_ s0) (cA - accelerometer (estimatedBias_ s0))
            (cW - gyroscope (estimatedBias_ s0)) dt true true true
          = UpdateEstimate (zeta_ s) cA cW dt true true true.
  by rewrite eb0 -ez [accelerometer _]/= [gyroscope _]/= !subr0.
rewrite (integrateMeasurementE eA eBa eBw).
have := @integrateMeasurementE F Expmap inverse D_rotate_R D_rotate_p
          uninitialized s0 cA cW dt A Ba Bw.
rewrite e0 => /(_ eA eBa eBw) ->.
by split; rewrite /= ?ec ?ek ?et ?eg ?ea.
Qed.

(** X10: only the difference between a sample and the bias snapshot matters:
    integrating a sequence of samples with bias b gives the same mean,
    covariance, count and elapsed time as integrating the corrected samples
    with a zero bias. *)
Theorem integrateAll_unbias p b ms :
  same_aggregate (integrateAll (new p b) ms)
                 (integrateAll (new p (mkBias 0 0)) (unbias b ms)).
Proof.
elim/last_ind: ms => [|ms m IH] //.
rewrite /unbias map_rcons !integrateAll_rcons -/(unbias b ms) /=.
have [_ eb ea eg] := integrateAll_new Expmap inverse D_rotate_R D_rotate_p
                       uninitialized p b ms.
have [_ eb0 ea0 eg0] := integrateAll_new Expmap inverse D_rotate_R D_rotate_p
                          uninitialized p (mkBias 0 0) (unbias b ms).
have eg' : covariance (gyroscopeNoiseModel_ (integrateAll (new p b) ms)) =
    covariance (gyroscopeNoiseModel_
                  (integrateAll (new p (mkBias 0 0)) (unbias b ms))).
  by rewrite eg eg0.
have ea' : covariance (accelerometerNoiseModel_ (integrateAll (new p b) ms)) =
    covariance (accelerometerNoiseModel_
                  (integrateAll (new p (mkBias 0 0)) (unbias b ms))).
  by rewrite ea ea0.
have := integrateMeasurement_unbias m.1.1 m.1.2 m.2 IH eg' ea' eb0.
by rewrite eb.
Qed.

(* predict, with the two corrections added to zeta. *)
Lemma predictE s (state_i : NavState F) (bias_i : Bias F) :
  let T := deltaTij_ s in
  let g := n_gravity (p_ s) in
  let Rt := (attitude state_i)^T in
  predict s state_i bias_i =
  retract state_i
    (zeta_ s + stack3 0 (Rt *m (T *: velocity state_i + (half * T) *: (T *: g)))
                        (Rt *m (T *: g))).
Proof.
move=> T g Rt.
rewrite /predict /dR /dP /dV seg0_stack3 seg3_stack3 seg6_stack3.
rewrite -[X in X + stack3 _ _ _](stack3_seg (zeta_ s)) stack3D addr0.
by rewrite mul_scalarE.
Qed.

(** X14: when no time has elapsed (in particular on a fresh aggregation)
    predict applies no correction, whatever the initial velocity and the
    gravity are: it returns state_i.retract(zeta). *)
Theorem predict_no_elapsed s (state_i : NavState F) (bias_i : Bias F) :
  deltaTij_ s = 0 ->
  predict s state_i bias_i = retract state_i (zeta_ s).
Proof.
move=> T0; rewrite predictE T0 !scale0r mulr0 scale0r addr0 !mulmx0.
by rewrite stack3_0 addr0.
Qed.

(* The covariance recursion of one call. *)
Lemma cov_integrateMeasurement s acc omega dt A Ba Bw :
  let est := UpdateEstimate (zeta_ s) (acc - accelerometer (estimatedBias_ s))
               (omega - gyroscope (estimatedBias_ s)) dt true true true in
  out_A est = Some A -> out_Ba est = Some Ba -> out_Bw est = Some Bw ->
  cov_ (integrateMeasurement s acc omega dt) =
  A *m cov_ s *m A^T
  + Bw *m div_scalar (covariance (gyroscopeNoiseModel_ s)) dt *m Bw^T
  + Ba *m div_scalar (covariance (accelerometerNoiseModel_ s)) dt *m Ba^T.
Proof. by move=> est eA eBa eBw; rewrite (integrateMeasurementE eA eBa eBw). Qed.

(* The covariance after the first call, in closed form. *)
Lemma first_step_blocks p b acc omega dt :
  let D := (Expmap 0).2 in
  let R := (Expmap 0).1 in
  let Dp := D_rotate_p R (dt *: (acc - accelerometer b)) in
  let X := dt *: inverse D in
  let Y := (half * dt ^+ 2) *: Dp in
  let Z := dt *: Dp in
  let W := dt^-1 *: gyroscopeCovariance p in
  let S := dt^-1 *: accelerometerCovariance p in
  cov_ (integrateMeasurement (new p b) acc omega dt) =
  blocks9 (X *m W *m X^T) 0 0
          0 (Y *m S *m Y^T) (Y *m S *m Z^T)
          0 (Z *m S *m Y^T) (Z *m S *m Z^T).
Proof.
move=> D R Dp X Y Z W S.
have [] := UpdateEstimate_outputs Expmap inverse D_rotate_R D_rotate_p
             uninitialized (zeta_ (new p b)) (acc - accelerometer b)
             (omega - gyroscope b) dt.
have -> : dR (zeta_ (new p b)) = 0 by rewrite /dR /seg0 linear0.
rewrite -/D -/R -/Dp -/X -/Y -/Z => eA eBa eBw.
rewrite (cov_integrateMeasurement eA eBa eBw).
have -> : cov_ (new p b) = 0 by [].
have -> : covariance (gyroscopeNoiseModel_ (new p b)) = gyroscopeCovariance p.
  by [].
have -> : covariance (accelerometerNoiseModel_ (new p b)) =
          accelerometerCovariance p by [].
rewrite !div_scalarE -/W -/S; set A := (1%:M + _).
rewrite mulmx0 mul0mx add0r.
rewrite !stack3_congr blocks9D !trmx0 !mulmx0 !mul0mx.
by rewrite !addr0 !add0r.
Qed.

(** X15: the first call on a fresh aggregation, with dt not 0, leaves the
    rotation noise uncorrelated with the position and velocity noise: cov
    is then block diagonal, a gyroscope part X W X^T in the rotation block
    and an accelerometer part in the four position and velocity blocks,
    where, as the source computes them, X = D^-1 * dt, W = Sigma_gyro / dt,
    S = Sigma_accel / dt, Y = D_Radt_adt * dt * (0.5 * dt) and
    Z = D_Radt_adt * dt. *)
Theorem first_step_covariance p b acc omega dt :
  dt != 0 ->
  let D := (Expmap 0).2 in
  let R := (Expmap 0).1 in
  let Dp := D_rotate_p R (mul_scalar (acc - accelerometer b) dt) in
  let X := mul_scalar (inverse D) dt in
  let Y := mul_scalar (mul_scalar Dp dt) (half * dt) in
  let Z := mul_scalar Dp dt in
  let W := div_scalar (gyroscopeCovariance p) dt in
  let S := div_scalar (accelerometerCovariance p) dt in
  cov_ (integrateMeasurement (new p b) acc omega dt) =
  blocks9 (X *m W *m X^T) 0 0
          0 (Y *m S *m Y^T) (Y *m S *m Z^T)
          0 (Z *m S *m Y^T) (Z *m S *m Z^T).
Proof.
move=> _ D R Dp X Y Z W S; rewrite first_step_blocks.
by rewrite /X /Y /Z /W /S /Dp !mul_scalarE !div_scalarE scalerA expr2 mulrA.
Qed.

End IntegratorMore.

(* --------------------------------------------------------------------- *)
(*  The conditional statements on the rational instance                  *)
(* --------------------------------------------------------------------- *)


Lemma elapsed_monotone_witness :
  all (fun m : Measurement rat => 0 < m.2) [:: (Rat.ones, 0, 1)] /\
  deltaTij_ (Rat.integrateAll Rat.fresh (take 0 [:: (Rat.ones, 0, 1)]))
  <= deltaTij_ (Rat.integrateAll Rat.fresh [:: (Rat.ones, 0, 1)]).
Proof.
have valid : all (fun m : Measurement rat => 0 < m.2) [:: (Rat.ones, 0, 1)].
  by apply/andP; split; first exact: ltr01.
split; first exact: valid.
have [_ le _] :=
  @elapsed_monotone rat Rat.Expmap Rat.inverse Rat.D_rotate_R Rat.D_rotate_p
    Rat.uninitialized Rat.params Rat.bias0 [:: (Rat.ones, 0, 1)] 0 valid.
exact: le.
Defined.

Lemma predict_no_elapsed_witness :
  deltaTij_ Rat.fresh = 0 /\
  Rat.predict Rat.fresh (mkNavState 1%:M 0 Rat.ones) Rat.bias0 =
  Rat.retract (mkNavState 1%:M 0 Rat.ones) (zeta_ Rat.fresh).
Proof.
split; first by [].
exact: (@predict_no_elapsed rat Rat.retract Rat.fresh
          (mkNavState 1%:M 0 Rat.ones) Rat.bias0 erefl).
Defined.

Lemma first_step_covariance_witness :
  (1 : rat) != 0 /\
  let Dp := Rat.D_rotate_p (Rat.Expmap 0).1 (mul_scalar (Rat.ones - 0) 1) in
  let X := mul_scalar (Rat.inverse (Rat.Expmap 0).2) 1 in
  let Y := mul_scalar (mul_scalar Dp 1) (half * 1) in
  let Z := mul_scalar Dp 1 in
  let W : Matrix3 rat := div_scalar 1%:M 1 in
  let S : Matrix3 rat := div_scalar 1%:M 1 in
  cov_ (Rat.integrateMeasurement Rat.fresh Rat.ones 0 1) =
  blocks9 (X *m W *m X^T) 0 0
          0 (Y *m S *m Y^T) (Y *m S *m Z^T)
          0 (Z *m S *m Y^T) (Z *m S *m Z^T).
Proof.
split; first exact: oner_neq0.
exact: (@first_step_covariance rat Rat.Expmap Rat.inverse Rat.D_rotate_R
          Rat.D_rotate_p Rat.uninitialized Rat.params Rat.bias0 Rat.ones 0 1
          (oner_neq0 _)).
Defined.

(* ===================================================================== *)
(*  Properties of the wrap command line                                  *)
(* ===================================================================== *)

Module WrapFacts.
Import Wrap.

Local Close Scope ring_scope.

Section Tool.

Variable Module : Type.
Variable Module_new : string -> string -> bool -> result Module.
Variable matlab_code : Module -> string -> result unit.
Variable python_code : Module -> string -> result unit.

Local Notation main := (main Module_new matlab_code python_code).
Local Notation generate := (generate Module_new matlab_code python_code).
Local Notation arg argv i := (nth EmptyString argv i).

Implicit Types (argv : seq string) (t : target).

(* A generator emits only its own target, and only after the constructor
   returned. *)
Lemma generate_emit t t' i m tb h :
  has (is_emit t') (generate t i m tb h).1 ->
  t' = t /\ throws (Module_new i m false) = false.
Proof.
case: t => /=; rewrite /generate_matlab_toolbox /generate_python_toolbox;
  case: (Module_new i m false) => [md|what] //=; by case: t'.
Qed.

Lemma generate_ctor_throws t i m tb h what :
  Module_new i m false = Throws what ->
  generate t i m tb h = ([:: ModuleCtor i m false], Throws what).
Proof.
by case: t => /=; rewrite /generate_matlab_toolbox /generate_python_toolbox
  => ->.
Qed.

(* Lines of output emit nothing. *)
Lemma quiet_no_emit t (debug : seq event) :
  all (fun e => ~~ is_ctor e && ~~ is_emit MATLAB e && ~~ is_emit PYTHON e)
      debug ->
  has (is_emit t) debug = false.
Proof.
elim: debug => //= e s IH /andP[/andP[/andP[_ m] p] /IH ->].
by rewrite orbF; case: {IH} t; apply/negbTE.
Qed.

(* main with enough arguments: one generator call between the debug lines
   and the report of the exception, if any. *)
Lemma main_dispatch argv :
  4 < size argv ->
  exists2 debug,
    all (fun e => ~~ is_ctor e && ~~ is_emit MATLAB e && ~~ is_emit PYTHON e)
        debug
    & let g := generate (selected argv) (arg argv 1) (arg argv 2)
                 (arg argv 3) (arg argv 4) in
      main argv =
      match g.2 with
      | Returns _ => (debug ++ g.1, 0)
      | Throws what => (debug ++ g.1 ++ [:: Print cerr what], 1)
      end.
Proof.
move=> enough; rewrite /main /selected ltnNge enough /=.
case: eqP => _ /=; last first.
  by exists [:: Print cout "DEBUG: Wrap called";
                Print cerr "DEBUG: MATLAB : 4"].
case: String.eqb => /=.
  by exists [:: Print cout "DEBUG: Wrap called"; Print cout (arg argv 5);
                Print cerr "DEBUG: Python"].
by exists [:: Print cout "DEBUG: Wrap called"; Print cout (arg argv 5);
              Print cerr "DEBUG: MATLAB : 5"].
Qed.

(* Too few arguments: no generator runs. *)
Lemma main_few argv t :
  size argv < 5 ->
  [/\ (main argv).2 = 0, has is_ctor (main argv).1 = false
    & has (is_emit t) (main argv).1 = false].
Proof.
move=> few; rewrite /main few /=; split=> //.
  by rewrite has_cat has_map /= (@eq_has _ _ pred0) ?has_pred0.
by rewrite has_cat has_map /= (@eq_has _ _ pred0) ?has_pred0.
Qed.

(** X16: with fewer than four arguments after the program name, main
    writes its greeting on cout and then, on cerr, the line Invalid
    arguments:, every argument it was given on a line of its own, an empty
    line and the usage text; it exits with status 0, and constructs no
    Module and emits no toolbox. *)
Theorem main_too_few_arguments argv t :
  size argv < 5 ->
  [/\ (main argv).1 =
      Print cout "DEBUG: Wrap called" :: Print cerr "Invalid arguments:"
        :: [seq Print cerr a | a <- argv] ++ Print cerr "" :: usage,
      (main argv).2 = 0, has is_ctor (main argv).1 = false
    & has (is_emit t) (main argv).1 = false].
Proof.
move=> few; have [status no_ctor no_emit] := @main_few argv t few.
by split=> //; rewrite /main few.
Qed.

(** X17: the exit status is 1 exactly when there were enough arguments and
    the generator that was run threw a std::exception; otherwise it is 0. *)
Theorem main_exit_status argv :
  let g := generate (selected argv) (arg argv 1) (arg argv 2) (arg argv 3)
             (arg argv 4) in
  (main argv).2 = if (4 < size argv) && throws g.2 then 1 else 0.
Proof.
move=> g; case: (ltnP 4 (size argv)) => [enough|few] /=; last first.
  by rewrite /main ltnS few.
have [debug _ ->] := main_dispatch enough.
by rewrite -/g; case: g.2.
Qed.

(** X18: when the Module constructor throws, no toolbox is emitted, the
    message of the exception is the last line written, on cerr, and the
    exit status is 1. *)
Theorem main_ctor_throws argv t what :
  4 < size argv ->
  Module_new (arg argv 1) (arg argv 2) false = Throws what ->
  [/\ (main argv).2 = 1, has (is_emit t) (main argv).1 = false
    & last (Print cout "") (main argv).1 = Print cerr what].
Proof.
move=> enough ctor; have [debug quiet ->] := main_dispatch enough.
rewrite (generate_ctor_throws _ _ _ ctor) /=; split=> //.
  by rewrite !has_cat /= !orbF quiet_no_emit.
by rewrite !last_cat.
Qed.

(** X19: a Python toolbox is emitted only for exactly five arguments after
    the program name, the fifth being the string python (compared exactly,
    so Python or PYTHON select MATLAB). *)
Theorem main_python_only_on_request argv :
  has (is_emit PYTHON) (main argv).1 ->
  size argv = 6 /\ arg argv 5 = "python"%string.
Proof.
case: (ltnP 4 (size argv)) => [enough|few]; last first.
  by have [_ _ ->] := @main_few argv PYTHON few.
have [debug quiet ->] := main_dispatch enough.
set g := generate _ _ _ _ _ => emitted.
have {emitted} : has (is_emit PYTHON) g.1.
  have quiet' := quiet_no_emit PYTHON quiet.
  by move: emitted; case: g.2 => [_|w] /=; rewrite !has_cat quiet' /= ?orbF.
case/generate_emit => sel _; move: sel; rewrite /selected.
by case: eqP => //= ->; case: String.eqb_spec.
Qed.

(** X20: the fourth argument, headerPath, is never used: with at least four
    arguments after the program name, replacing it changes neither what is
    written and called nor the exit status. *)
Theorem main_ignores_headerPath argv headerPath :
  4 < size argv ->
  main (set_nth EmptyString argv 4 headerPath) = main argv.
Proof.
move=> enough.
have esz : size (set_nth EmptyString argv 4 headerPath) = size argv.
  by rewrite size_set_nth; apply/maxn_idPr.
have enth i : i != 4 ->
    arg (set_nth EmptyString argv 4 headerPath) i = arg argv i.
  by move=> /negbTE ne; rewrite nth_set_nth /= ne.
rewrite /main esz ltnNge enough /=.
rewrite /generate_matlab_toolbox /generate_python_toolbox.
by rewrite (enth 1) // (enth 2) // (enth 3) // (enth 5).
Qed.


End Tool.

(* On the stand-in Module.h. *)
Lemma main_ctor_throws_witness :
  4 < size [:: "wrap"; "/abs"; ""; "/out"; "/hdr"]%string /\
  (demo_main [:: "wrap"; "/abs"; ""; "/out"; "/hdr"]%string).2 = 1.
Proof.
split; first by [].
have [status _ _] := @main_ctor_throws _ demo_new demo_code demo_code
                       [:: "wrap"; "/abs"; ""; "/out"; "/hdr"]%string MATLAB
                       "no module name" isT erefl.
exact: status.
Defined.

Lemma main_too_few_arguments_witness :
  size [:: "wrap"; "/abs"]%string < 5 /\
  (demo_main [:: "wrap"; "/abs"]%string).1 =
  [:: Print cout "DEBUG: Wrap called"; Print cerr "Invalid arguments:";
      Print cerr "wrap"; Print cerr "/abs"; Print cerr ""] ++ usage.
Proof.
split; first by [].
have [trace _ _ _] := @main_too_few_arguments _ demo_new demo_code demo_code
                        [:: "wrap"; "/abs"]%string MATLAB isT.
exact: trace.
Defined.

Lemma main_python_only_on_request_witness :
  size [:: "wrap"; "/abs"; "gtsam"; "/out"; "/hdr"; "python"]%string = 6.
Proof.
by have [] := @main_python_only_on_request _ demo_new demo_code demo_code
                [:: "wrap"; "/abs"; "gtsam"; "/out"; "/hdr"; "python"]%string
                isT.
Defined.

Lemma main_ignores_headerPath_witness :
  demo_main [:: "wrap"; "/abs"; "gtsam"; "/out"; "/other"]%string =
  demo_main [:: "wrap"; "/abs"; "gtsam"; "/out"; "/hdr"]%string.
Proof.
exact: (@main_ignores_headerPath _ demo_new demo_code demo_code
          [:: "wrap"; "/abs"; "gtsam"; "/out"; "/hdr"]%string "/other" isT).
Defined.


End WrapFacts.
